(** * mavehgvs.position: parsing and ordering of variant positions

    A shallow embedding of [src/mavehgvs/position.py]: the pattern
    [pos_extended], the constructor [VariantPosition.__init__], the
    classification predicates, [is_adjacent], [__lt__] and [__eq__].

    Conventions of the embedding
    - a Python [str] is a list of characters ([str]); the entry points take a
      Rocq [string] and convert it.  Characters outside Latin-1 are not
      represented; the pattern only names ASCII characters, so any such
      character is rejected like every other character outside the classes;
    - a Python [int] is a [Z];
    - an attribute that may hold [None] is an [option];
    - a call that may raise returns a [result]: [Ok v] or [Raise e];
    - a method that may return [True], [False] or fall off its end
      (returning [None]) returns a [pyval]. *)

From Stdlib Require Import String Ascii List ZArith Bool Lia.
Import ListNotations.

Open Scope Z_scope.

(* ------------------------------------------------------------------ *)
(** ** Exceptions and results *)

Inductive exn : Type :=
| ValueError (msg : string)
| TypeError
| AttributeError.

Inductive result (A : Type) : Type :=
| Ok (a : A)
| Raise (e : exn).

Arguments Ok {A} a.
Arguments Raise {A} e.

Definition bind {A B : Type} (m : result A) (k : A -> result B) : result B :=
  match m with
  | Ok a => k a
  | Raise e => Raise e
  end.

Notation "x <- m ;; k" := (bind m (fun x => k))
  (at level 61, m at next level, right associativity).

(** What a Python method hands back when its result is a truth value or
    nothing at all. *)
Inductive pyval : Type :=
| PyBool (b : bool)
| PyNone.

(* ------------------------------------------------------------------ *)
(** ** Strings *)

Definition str : Type := list ascii.

Definition of_string (s : string) : str := list_ascii_of_string s.
Definition to_string (s : str) : string := string_of_list_ascii s.

(** [c in s] for a one-character [c]. *)
Definition contains (c : ascii) (s : str) : bool :=
  existsb (Ascii.eqb c) s.

(** [s.startswith(c)] for a one-character [c]. *)
Definition startswith (c : ascii) (s : str) : bool :=
  match s with
  | [] => false
  | x :: _ => Ascii.eqb x c
  end.

(** [s[1:]] *)
Definition slice_from1 (s : str) : str := tl s.

(** [s.split(sep)] for a one-character separator: the pieces between the
    occurrences of [sep], always at least one piece. *)
Fixpoint split (sep : ascii) (s : str) : list str :=
  match s with
  | [] => [[]]
  | c :: t =>
      if Ascii.eqb c sep then [] :: split sep t
      else match split sep t with
           | [] => [[c]]
           | p :: ps => (c :: p) :: ps
           end
  end.

Definition is_digit (c : ascii) : bool :=
  (48 <=? nat_of_ascii c)%nat && (nat_of_ascii c <=? 57)%nat.

Definition digit_val (c : ascii) : Z := Z.of_nat (nat_of_ascii c) - 48.

Definition digits_val (s : str) : Z :=
  fold_left (fun acc c => 10 * acc + digit_val c) s 0.

(** [int(x)] on the strings the constructor hands over.  The model accepts a
    non-empty run of ASCII digits and raises [ValueError] on anything else;
    Python's [int] also accepts signs, surrounding blanks and underscores,
    none of which can occur in a piece of a matched position. *)
Definition int (x : str) : result Z :=
  match x with
  | [] => Raise (ValueError "invalid literal for int() with base 10: ''")
  | _ :: _ =>
      if forallb is_digit x then Ok (digits_val x)
      else Raise (ValueError
             ("invalid literal for int() with base 10: '" ++ to_string x ++ "'"))
  end.

(** [a, b = (int(x) for x in xs)]: the generator is consumed item by item,
    a third item is requested to check that there is none. *)
Definition unpack2_int (xs : list str) : result (Z * Z) :=
  match xs with
  | [] => Raise (ValueError "not enough values to unpack (expected 2, got 0)")
  | x1 :: t1 =>
      v1 <- int x1 ;;
      match t1 with
      | [] => Raise (ValueError "not enough values to unpack (expected 2, got 1)")
      | x2 :: t2 =>
          v2 <- int x2 ;;
          match t2 with
          | [] => Ok (v1, v2)
          | x3 :: _ =>
              _ <- int x3 ;;
              Raise (ValueError "too many values to unpack (expected 2)")
          end
      end
  end.

(* ------------------------------------------------------------------ *)
(** ** Regular expressions with named groups, matched by backtracking *)

Module Re.

Inductive class_item : Type :=
| One (c : ascii)
| Range (lo hi : ascii).

Inductive regex : Type :=
| Class (items : list class_item)       (* [...] *)
| Cat (r1 r2 : regex)                   (* r1 r2 *)
| Alt (r1 r2 : regex)                   (* r1|r2 *)
| Star (r : regex)                      (* r*, greedy *)
| Group (name : string) (r : regex).    (* (?P<name>r) *)

Definition in_item (c : ascii) (i : class_item) : bool :=
  match i with
  | One x => Ascii.eqb c x
  | Range lo hi =>
      (nat_of_ascii lo <=? nat_of_ascii c)%nat
      && (nat_of_ascii c <=? nat_of_ascii hi)%nat
  end.

Definition in_class (items : list class_item) (c : ascii) : bool :=
  existsb (in_item c) items.

(** A state of the matcher: what is left of the subject and the groups
    captured so far, most recent first. *)
Record mstate : Type := MState {
  rest : str;
  caps : list (string * str)
}.

(** The part of the subject consumed between two states. *)
Definition consumed (before after : mstate) : str :=
  firstn (length (rest before) - length (rest after))%nat (rest before).

(** Greedy iteration: every way to go once more round (when the round made
    progress) comes before stopping here. *)
Fixpoint star_iter (step : mstate -> list mstate) (fuel : nat) (st : mstate)
  : list mstate :=
  match fuel with
  | O => [st]
  | S f =>
      flat_map
        (fun st' =>
           if (length (rest st') <? length (rest st))%nat
           then star_iter step f st' else [])
        (step st)
      ++ [st]
  end.

(** All the ways [r] matches a prefix of the subject, in the order a
    backtracking matcher tries them. *)
Fixpoint run (r : regex) (st : mstate) : list mstate :=
  match r with
  | Class items =>
      match rest st with
      | c :: t => if in_class items c then [MState t (caps st)] else []
      | [] => []
      end
  | Cat r1 r2 => flat_map (run r2) (run r1 st)
  | Alt r1 r2 => run r1 st ++ run r2 st
  | Star r' => star_iter (run r') (length (rest st)) st
  | Group name r' =>
      map (fun st' => MState (rest st') ((name, consumed st st') :: caps st'))
          (run r' st)
  end.

Definition at_end (st : mstate) : bool :=
  match rest st with
  | [] => true
  | _ :: _ => false
  end.

(** [re.compile(r).fullmatch(s)]: the first way to match that uses up the
    whole subject, or [None]. *)
Definition fullmatch (r : regex) (s : str) : option mstate :=
  find at_end (run r (MState s [])).

(** [m.groupdict()[name]]: the text of the group, [None] when the group took
    no part in the match. *)
Fixpoint lookup (name : string) (cs : list (string * str)) : option str :=
  match cs with
  | [] => None
  | (n, v) :: t => if String.eqb n name then Some v else lookup name t
  end.

Definition groupdict (m : mstate) (name : string) : option str :=
  lookup name (caps m).

End Re.

Import Re.

(* ------------------------------------------------------------------ *)
(** ** The pattern *)

(** Modelled from the spec: [pos] is imported from [mavehgvs.patterns.shared],
    which is not part of the sources at hand.  The spec describes it as the
    digit sub-pattern that disallows leading zeros in multi-digit runs and
    disallows an unsigned zero: [[1-9][0-9]*]. *)
Definition pos : regex :=
  Cat (Class [Range "1" "9"]) (Star (Class [Range "0" "9"])).

(** [[+-]] *)
Definition sign_class : regex := Class [One "+"; One "-"].

(** [[*-]] *)
Definition utr_class : regex := Class [One "*"; One "-"].

(** [(?P<position>{pos})|(?P<position_intron>{pos}[+-]{pos})|(?P<position_utr>[*-]{pos})|(?P<position_utr_intron>[*-]{pos}[+-]{pos})] *)
Definition pos_extended : regex :=
  Alt (Group "position" pos)
 (Alt (Group "position_intron" (Cat pos (Cat sign_class pos)))
 (Alt (Group "position_utr" (Cat utr_class pos))
      (Group "position_utr_intron"
         (Cat utr_class (Cat pos (Cat sign_class pos)))))).

(* ------------------------------------------------------------------ *)
(** ** VariantPosition *)

Record VariantPosition : Type := mkVP {
  position : option Z;
  intronic_position : option Z;
  utr : option string;
  utr_position : option Z
}.

Definition _fullmatch (s : str) : option mstate := fullmatch pos_extended s.

(** [m.groupdict()] on the result of [fullmatch]: [None] has no such
    attribute. *)
Definition match_groupdict (m : option mstate)
  : result (string -> option str) :=
  match m with
  | None => Raise AttributeError
  | Some m => Ok (groupdict m)
  end.

(** [VariantPosition.__init__]: the four attributes start as [None] and are
    filled in by the branch of the group that matched. *)
Definition __init__ (pos_str : string) : result VariantPosition :=
  match match_groupdict (_fullmatch (of_string pos_str)) with
  | Raise AttributeError =>
      (* except AttributeError *)
      Raise (ValueError
        ("invalid variant position string '" ++ pos_str ++ "'"))
  | Raise e => Raise e
  | Ok gdict =>
      match gdict "position"%string with
      | Some g =>
          p <- int g ;;
          Ok (mkVP (Some p) None None None)
      | None =>
      match gdict "position_intron"%string with
      | Some g =>
          if contains "+" g then
            pi <- unpack2_int (split "+" g) ;;
            Ok (mkVP (Some (fst pi)) (Some (snd pi)) None None)
          else if contains "-" g then
            pi <- unpack2_int (split "-" g) ;;
            Ok (mkVP (Some (fst pi)) (Some (snd pi * -1)) None None)
          else Raise (ValueError "unexpected intronic position separator")
      | None =>
      match gdict "position_utr"%string with
      | Some g =>
          u <- (if startswith "*" g then Ok "3p"%string
                else if startswith "-" g then Ok "5p"%string
                else Raise (ValueError "unexpected UTR symbol")) ;;
          up <- int (slice_from1 g) ;;
          Ok (mkVP None None (Some u) (Some up))
      | None =>
      match gdict "position_utr_intron"%string with
      | Some g =>
          u <- (if startswith "*" g then Ok "3p"%string
                else if startswith "-" g then Ok "5p"%string
                else Raise (ValueError "unexpected UTR symbol")) ;;
          if contains "+" (slice_from1 g) then
            pi <- unpack2_int (split "+" (slice_from1 g)) ;;
            Ok (mkVP None (Some (snd pi)) (Some u) (Some (fst pi)))
          else
            (* the test reads gdict["position_intron"], not
               gdict["position_utr_intron"] *)
            match gdict "position_intron"%string with
            | None => Raise TypeError      (* None[1:] *)
            | Some g' =>
                if contains "-" (slice_from1 g') then
                  pi <- unpack2_int (split "-" (slice_from1 g)) ;;
                  Ok (mkVP None (Some (snd pi * -1)) (Some u) (Some (fst pi)))
                else Raise (ValueError "unexpected intronic position separator")
            end
      | None => Raise (ValueError "unexpected position format")
      end end end end
  end.

(** [is_utr], [is_intronic], [is_extended] *)
Definition is_utr (self : VariantPosition) : bool :=
  match utr self with
  | Some _ => true
  | None => false
  end.

Definition is_intronic (self : VariantPosition) : bool :=
  match intronic_position self with
  | Some _ => true
  | None => false
  end.

Definition is_extended (self : VariantPosition) : bool :=
  is_intronic self || is_utr self.

(** Arithmetic and comparison on attributes that may hold [None]: Python
    raises [TypeError] when an operand is [None]. *)
Definition py_lt (x y : option Z) : result bool :=
  match x, y with
  | Some a, Some b => Ok (a <? b)
  | _, _ => Raise TypeError
  end.

Definition py_sub (x y : option Z) : result Z :=
  match x, y with
  | Some a, Some b => Ok (a - b)
  | _, _ => Raise TypeError
  end.

(** [==] on attributes: [None] equals [None] only. *)
Definition opt_eqb {A : Type} (eqb : A -> A -> bool) (x y : option A) : bool :=
  match x, y with
  | Some a, Some b => eqb a b
  | None, None => true
  | _, _ => false
  end.

Definition int_eq : option Z -> option Z -> bool := opt_eqb Z.eqb.
Definition str_eq : option string -> option string -> bool := opt_eqb String.eqb.

(** [is_adjacent]: the branch for extended positions is [pass], so the call
    returns [None] there. *)
Definition is_adjacent (self other : VariantPosition) : result pyval :=
  if negb (is_extended self) && negb (is_extended other) then
    d <- py_sub (position self) (position other) ;;
    if Z.abs d =? 1 then Ok (PyBool true) else Ok (PyBool false)
  else Ok PyNone.

(** The local function [intron_lt] of [__lt__]. *)
Definition intron_lt (a b : VariantPosition) : result bool :=
  if int_eq (intronic_position a) (intronic_position b) then Ok false
  else match intronic_position a with
       | None => py_lt (intronic_position b) (Some 0)
       | Some _ =>
           match intronic_position b with
           | None => py_lt (intronic_position a) (Some 0)
           | Some _ => py_lt (intronic_position a) (intronic_position b)
           end
       end.

(** [VariantPosition.__lt__].  The last [elif] has no [else]: when neither
    test holds the method returns [None]. *)
Definition __lt__ (self other : VariantPosition) : result pyval :=
  if str_eq (utr self) (utr other) then
    match utr self with
    | Some _ =>
        if negb (int_eq (utr_position self) (utr_position other)) then
          b <- py_lt (utr_position self) (utr_position other) ;; Ok (PyBool b)
        else
          b <- intron_lt self other ;; Ok (PyBool b)
    | None =>
        if negb (int_eq (position self) (position other)) then
          b <- py_lt (position self) (position other) ;; Ok (PyBool b)
        else
          b <- intron_lt self other ;; Ok (PyBool b)
    end
  else
    if str_eq (utr self) (Some "5p"%string)
       || str_eq (utr other) (Some "3p"%string)
    then Ok (PyBool true)
    else if str_eq (utr self) (Some "3p"%string)
            || str_eq (utr other) (Some "5p"%string)
    then Ok (PyBool false)
    else Ok PyNone.

(** [VariantPosition.__eq__] and [__ne__]: the four attributes as a tuple. *)
Definition __eq__ (self other : VariantPosition) : bool :=
  int_eq (position self) (position other)
  && int_eq (intronic_position self) (intronic_position other)
  && str_eq (utr self) (utr other)
  && int_eq (utr_position self) (utr_position other).

Definition __ne__ (self other : VariantPosition) : bool :=
  negb (__eq__ self other).

(** Two results of the constructor compared with [<]: the comparison is only
    reached when both constructions succeed. *)
Definition lt_str (s1 s2 : string) : result pyval :=
  a <- __init__ s1 ;; b <- __init__ s2 ;; __lt__ a b.

(* ------------------------------------------------------------------ *)
(** ** Vocabulary of the statements *)

Definition nonzero_digit (c : ascii) : bool := in_class [Range "1" "9"] c.
Definition digit (c : ascii) : bool := in_class [Range "0" "9"] c.

(** A string matched by [pos]: a non-zero digit followed by digits. *)
Definition number (x : str) : Prop :=
  exists d ds, x = d :: ds /\ nonzero_digit d = true /\ forallb digit ds = true.

(** The four shapes of a position, as the tagged union the pattern's four
    named alternatives stand for. *)
Inductive shape : Type :=
| Simple (x : str)
| Intron (x : str) (sg : ascii) (y : str)
| Utr (u : ascii) (x : str)
| UtrIntron (u : ascii) (x : str) (sg : ascii) (y : str).

Definition text (sh : shape) : str :=
  match sh with
  | Simple x => x
  | Intron x sg y => x ++ sg :: y
  | Utr u x => u :: x
  | UtrIntron u x sg y => u :: x ++ sg :: y
  end.

Definition group_name (sh : shape) : string :=
  match sh with
  | Simple _ => "position"
  | Intron _ _ _ => "position_intron"
  | Utr _ _ => "position_utr"
  | UtrIntron _ _ _ _ => "position_utr_intron"
  end.

Definition is_sign (c : ascii) : Prop := c = "+"%char \/ c = "-"%char.
Definition is_utr_symbol (c : ascii) : Prop := c = "*"%char \/ c = "-"%char.

Definition shape_ok (sh : shape) : Prop :=
  match sh with
  | Simple x => number x
  | Intron x sg y => number x /\ is_sign sg /\ number y
  | Utr u x => is_utr_symbol u /\ number x
  | UtrIntron u x sg y => is_utr_symbol u /\ number x /\ is_sign sg /\ number y
  end.

Definition side (u : ascii) : string :=
  if Ascii.eqb u "*" then "3p"%string else "5p"%string.

Definition signed (sg : ascii) (k : Z) : Z :=
  if Ascii.eqb sg "+" then k else k * -1.

(** The result of [__init__] on a string of each shape. *)
Definition outcome (sh : shape) : result VariantPosition :=
  match sh with
  | Simple x => Ok (mkVP (Some (digits_val x)) None None None)
  | Intron x sg y =>
      Ok (mkVP (Some (digits_val x)) (Some (signed sg (digits_val y))) None None)
  | Utr u x => Ok (mkVP None None (Some (side u)) (Some (digits_val x)))
  | UtrIntron u x sg y =>
      if Ascii.eqb sg "+"
      then Ok (mkVP None (Some (digits_val y)) (Some (side u))
                 (Some (digits_val x)))
      else Raise TypeError
  end.

(** What a successful construction leaves in the four attributes. *)
Inductive constructed : VariantPosition -> Prop :=
| C_position n :
    constructed (mkVP (Some n) None None None)
| C_intron n k :
    constructed (mkVP (Some n) (Some k) None None)
| C_utr u n :
    u = "3p"%string \/ u = "5p"%string ->
    constructed (mkVP None None (Some u) (Some n))
| C_utr_intron u n k :
    u = "3p"%string \/ u = "5p"%string ->
    constructed (mkVP None (Some k) (Some u) (Some n)).

(** Which attributes are populated, in the order
    [position], [intronic_position], [utr], [utr_position]. *)
Definition present {A : Type} (x : option A) : bool :=
  match x with
  | Some _ => true
  | None => false
  end.

Definition populated (v : VariantPosition) : bool * bool * bool * bool :=
  (present (position v), present (intronic_position v),
   present (utr v), present (utr_position v)).

(** The rank of a UTR side in [5p < non-UTR < 3p]. *)
Definition side_rank (u : option string) : Z :=
  match u with
  | None => 1
  | Some s => if String.eqb s "5p" then 0 else 2
  end.

(** The number compared first: [utr_position] for a UTR position,
    [position] otherwise. *)
Definition primary (v : VariantPosition) : option Z :=
  match utr v with
  | Some _ => utr_position v
  | None => position v
  end.

Ltac case_ifs :=
  repeat match goal with
         | |- context [if ?c then _ else _] => destruct c eqn:?; cbn
         end.

(** A deterministic reading of a string as a shape: the leading symbol, the
    digits up to the first other character, and what follows it. *)
Fixpoint span_digits (s : str) : str * str :=
  match s with
  | [] => ([], [])
  | c :: t =>
      if digit c then (c :: fst (span_digits t), snd (span_digits t))
      else ([], s)
  end.

Definition classify (s : str) : option shape :=
  match s with
  | [] => None
  | c :: t =>
      if digit c then
        match span_digits s with
        | (x, []) => Some (Simple x)
        | (x, sg :: y) => Some (Intron x sg y)
        end
      else
        match span_digits t with
        | (x, []) => Some (Utr c x)
        | (x, sg :: y) => Some (UtrIntron c x sg y)
        end
  end.

(** Truth value of what a method returned: [None] counts as false. *)
Definition truthy (v : pyval) : bool :=
  match v with
  | PyBool b => b
  | PyNone => false
  end.

(** The operators the class decorator [total_ordering] derives from
    [__lt__], [__eq__] and [__ne__]: [a > b] is [not a < b and a != b],
    [a <= b] is [a < b or a == b], [a >= b] is [not a < b]. *)
Definition __gt__ (self other : VariantPosition) : result pyval :=
  r <- __lt__ self other ;;
  Ok (PyBool (negb (truthy r) && __ne__ self other)).

Definition __le__ (self other : VariantPosition) : result pyval :=
  r <- __lt__ self other ;;
  Ok (PyBool (truthy r || __eq__ self other)).

Definition __ge__ (self other : VariantPosition) : result pyval :=
  r <- __lt__ self other ;;
  Ok (PyBool (negb (truthy r))).

(** The value of an attribute that may be absent, [0] standing in for
    [None]. *)
Definition value_or_zero (x : option Z) : Z :=
  match x with
  | Some z => z
  | None => 0
  end.

(** The triple a position is sorted by: the rank of its UTR side, the number
    compared first, the intronic position. *)
Definition sort_key (v : VariantPosition) : Z * Z * Z :=
  (side_rank (utr v), value_or_zero (primary v),
   value_or_zero (intronic_position v)).

(** Lexicographic [<] on triples. *)
Definition lex_ltb (k1 k2 : Z * Z * Z) : bool :=
  let '(a1, b1, c1) := k1 in
  let '(a2, b2, c2) := k2 in
  (a1 <? a2) || ((a1 =? a2) && ((b1 <? b2) || ((b1 =? b2) && (c1 <? c2)))).

(** The test the sub-pattern [pos] stands for, as a function: a non-zero
    digit followed by digits. *)
Definition is_number (x : str) : bool :=
  match x with
  | [] => false
  | d :: ds => nonzero_digit d && forallb digit ds
  end.

(** The pair of positions on which the intronic tie-break of [__lt__] takes
    the absent-left branch: same UTR side, same number compared first, no
    intronic position on the left and one on the right. *)
Definition boundary_before_offset (a b : VariantPosition) : bool :=
  str_eq (utr a) (utr b) && int_eq (primary a) (primary b)
  && negb (is_intronic a) && is_intronic b.

(** Equality of sort keys. *)
Definition key_eqb (k1 k2 : Z * Z * Z) : bool :=
  let '(a1, b1, c1) := k1 in
  let '(a2, b2, c2) := k2 in
  (a1 =? a2) && (b1 =? b2) && (c1 =? c2).

(** An intronic position, when present, is not [0]. *)
Definition nonzero_intron (v : VariantPosition) : Prop :=
  forall k, intronic_position v = Some k -> k <> 0.

(* ------------------------------------------------------------------ *)
(** * Properties *)

(** ** Characters and digit runs *)

Lemma in_class_range lo hi c :
  in_class [Range lo hi] c = true <->
  (nat_of_ascii lo <= nat_of_ascii c <= nat_of_ascii hi)%nat.
Proof.
  unfold in_class, existsb, in_item.
  rewrite orb_false_r, andb_true_iff, !Nat.leb_le. reflexivity.
Qed.

Lemma digit_bounds c :
  digit c = true -> (48 <= nat_of_ascii c <= 57)%nat.
Proof. intros H. apply in_class_range in H. exact H. Qed.

Lemma nonzero_digit_digit c : nonzero_digit c = true -> digit c = true.
Proof.
  intros H. apply in_class_range in H. apply in_class_range.
  change (nat_of_ascii "1") with 49%nat in H.
  change (nat_of_ascii "0") with 48%nat. lia.
Qed.

Lemma digit_is_digit c : digit c = true -> is_digit c = true.
Proof.
  intros H. apply digit_bounds in H. unfold is_digit.
  rewrite andb_true_iff, !Nat.leb_le. lia.
Qed.

(** A digit is none of the punctuation characters of the grammar. *)
Lemma digit_not_punct c x :
  digit c = true -> (nat_of_ascii x < 48)%nat -> Ascii.eqb x c = false.
Proof.
  intros H Hx. apply digit_bounds in H.
  destruct (Ascii.eqb_spec x c) as [->|]; [lia | reflexivity].
Qed.

Lemma number_digits x : number x -> forallb digit x = true.
Proof.
  intros (d & ds & -> & Hd & Hds). simpl.
  now rewrite (nonzero_digit_digit _ Hd), Hds.
Qed.

Lemma digits_no_punct x c :
  forallb digit x = true -> (nat_of_ascii c < 48)%nat -> contains c x = false.
Proof.
  intros H Hc. induction x as [|a x IH]; simpl in *; [reflexivity|].
  apply andb_true_iff in H as [Ha Hx].
  now rewrite (digit_not_punct _ _ Ha Hc), IH.
Qed.

Lemma int_number x : number x -> int x = Ok (digits_val x).
Proof.
  intros Hx. pose proof (number_digits _ Hx) as Hd.
  destruct Hx as (d & ds & -> & _ & _). unfold int.
  replace (forallb is_digit (d :: ds)) with true; [reflexivity|].
  symmetry. apply forallb_forall. intros c Hc.
  apply digit_is_digit. revert c Hc. now apply forallb_forall.
Qed.

Lemma sign_not_digit c : is_sign c -> digit c = false.
Proof. intros [-> | ->]; reflexivity. Qed.

Lemma utr_symbol_not_digit c : is_utr_symbol c -> digit c = false.
Proof. intros [-> | ->]; reflexivity. Qed.

Lemma in_class_two a b c :
  in_class [One a; One b] c = true -> c = a \/ c = b.
Proof.
  unfold in_class, existsb, in_item. rewrite orb_false_r, orb_true_iff.
  now rewrite !Ascii.eqb_eq.
Qed.

(** ** [in] and [split] on the shapes the pattern lets through *)

Lemma contains_app c x y :
  contains c (x ++ y) = contains c x || contains c y.
Proof. apply existsb_app. Qed.

Lemma contains_here c y : contains c (c :: y) = true.
Proof. simpl. now rewrite Ascii.eqb_refl. Qed.

Lemma contains_plus x y :
  number x -> contains "+" (x ++ "+"%char :: y) = true.
Proof.
  intros _. rewrite contains_app, contains_here. apply orb_true_r.
Qed.

Lemma contains_minus x y :
  number x -> number y ->
  contains "+" (x ++ "-"%char :: y) = false
  /\ contains "-" (x ++ "-"%char :: y) = true.
Proof.
  intros Hx Hy. split.
  - rewrite contains_app.
    change (contains "+" ("-"%char :: y)) with (contains "+" y).
    rewrite !(digits_no_punct _ "+"); auto using number_digits; cbn; lia.
  - rewrite contains_app, contains_here. apply orb_true_r.
Qed.

Lemma split_none sep x : contains sep x = false -> split sep x = [x].
Proof.
  induction x as [|c x IH]; simpl; [reflexivity|].
  intros H. apply orb_false_iff in H as [Hc Hx].
  rewrite Ascii.eqb_sym, Hc. now rewrite (IH Hx).
Qed.

Lemma split_app sep x y :
  contains sep x = false -> split sep (x ++ sep :: y) = x :: split sep y.
Proof.
  induction x as [|c x IH]; simpl.
  - intros _. now rewrite Ascii.eqb_refl.
  - intros H. apply orb_false_iff in H as [Hc Hx].
    rewrite Ascii.eqb_sym, Hc. now rewrite (IH Hx).
Qed.

(** Two numbers around a separator unpack into their two values. *)
Lemma unpack2_numbers sep x y :
  (nat_of_ascii sep < 48)%nat -> number x -> number y ->
  unpack2_int (split sep (x ++ sep :: y)) = Ok (digits_val x, digits_val y).
Proof.
  intros Hs Hx Hy.
  rewrite split_app by (apply digits_no_punct; auto using number_digits).
  rewrite split_none by (apply digits_no_punct; auto using number_digits).
  unfold unpack2_int. rewrite (int_number _ Hx). simpl.
  now rewrite (int_number _ Hy).
Qed.

(** ** A string has at most one reading *)

Lemma span_digits_all x : forallb digit x = true -> span_digits x = (x, []).
Proof.
  induction x as [|c x IH]; cbn [span_digits forallb]; [reflexivity|].
  intros H. apply andb_true_iff in H as [-> Hx]. now rewrite (IH Hx).
Qed.

Lemma span_digits_stop x c y :
  forallb digit x = true -> digit c = false ->
  span_digits (x ++ c :: y) = (x, c :: y).
Proof.
  intros Hx Hc. induction x as [|d x IH]; cbn [span_digits app].
  - now rewrite Hc.
  - cbn [forallb] in Hx. apply andb_true_iff in Hx as [-> Hx].
    now rewrite (IH Hx).
Qed.

Lemma classify_text sh : shape_ok sh -> classify (text sh) = Some sh.
Proof.
  destruct sh as [x | x sg y | u x | u x sg y]; cbn [shape_ok text].
  - intros Hx. pose proof (number_digits _ Hx) as Hd.
    destruct Hx as (d & ds & -> & Hn & _). unfold classify.
    rewrite (nonzero_digit_digit _ Hn), (span_digits_all _ Hd). reflexivity.
  - intros (Hx & Hsg & Hy). pose proof (number_digits _ Hx) as Hd.
    destruct Hx as (d & ds & -> & Hn & _). unfold classify.
    cbn [app]. rewrite (nonzero_digit_digit _ Hn).
    change (d :: ds ++ sg :: y) with ((d :: ds) ++ sg :: y).
    rewrite (span_digits_stop _ _ _ Hd (sign_not_digit _ Hsg)). reflexivity.
  - intros (Hu & Hx). unfold classify.
    rewrite (utr_symbol_not_digit _ Hu), (span_digits_all _ (number_digits _ Hx)).
    reflexivity.
  - intros (Hu & Hx & Hsg & Hy). unfold classify.
    rewrite (utr_symbol_not_digit _ Hu).
    rewrite (span_digits_stop _ _ _ (number_digits _ Hx) (sign_not_digit _ Hsg)).
    reflexivity.
Qed.

(** A string has at most one reading. *)
Lemma shape_unique sh sh' :
  shape_ok sh -> shape_ok sh' -> text sh = text sh' -> sh = sh'.
Proof.
  intros H H' E. apply classify_text in H, H'. congruence.
Qed.

(** ** What the matcher lets through *)

Lemma run_class items st st' :
  In st' (run (Class items) st) ->
  exists c, rest st = c :: rest st' /\ in_class items c = true
            /\ caps st' = caps st.
Proof.
  cbn [run]. destruct (rest st) as [|c t]; [intros []|].
  destruct (in_class items c) eqn:Hc; [|intros []].
  intros [<-|[]]. exists c. auto.
Qed.

Lemma star_class items n st st' :
  In st' (star_iter (run (Class items)) n st) ->
  exists ds, rest st = ds ++ rest st'
             /\ forallb (in_class items) ds = true /\ caps st' = caps st.
Proof.
  revert st. induction n as [|n IH]; intros st; cbn [star_iter].
  - intros [<-|[]]. exists []. auto.
  - intros H. apply in_app_or in H as [H|[<-|[]]]; [|exists []; auto].
    apply in_flat_map in H as (st1 & H1 & H2).
    destruct (length (rest st1) <? length (rest st))%nat; [|destruct H2].
    apply run_class in H1 as (c & E1 & Hc & C1).
    apply IH in H2 as (ds & E2 & Hds & C2).
    exists (c :: ds). rewrite E1, E2. cbn [forallb app].
    rewrite Hc, Hds. repeat split. congruence.
Qed.

Lemma run_pos st st' :
  In st' (run pos st) ->
  exists x, number x /\ rest st = x ++ rest st' /\ caps st' = caps st.
Proof.
  unfold pos. cbn [run]. intros H.
  apply in_flat_map in H as (st1 & H1 & H2).
  apply (run_class _ _ _) in H1 as (d & E1 & Hd & C1).
  apply star_class in H2 as (ds & E2 & Hds & C2).
  exists (d :: ds). split; [exists d, ds; auto|].
  rewrite E1, E2. split; [reflexivity | congruence].
Qed.

(** [pos][+-][pos] *)
Lemma run_pos_sign_pos st st' :
  In st' (run (Cat pos (Cat sign_class pos)) st) ->
  exists x sg y, number x /\ in_class [One "+"; One "-"] sg = true /\ number y
                 /\ rest st = x ++ sg :: y ++ rest st' /\ caps st' = caps st.
Proof.
  cbn [run]. intros H.
  apply in_flat_map in H as (st1 & H1 & H).
  apply in_flat_map in H as (st2 & H2 & H3).
  apply run_pos in H1 as (x & Hx & E1 & C1).
  apply (run_class _ _ _) in H2 as (sg & E2 & Hsg & C2).
  apply run_pos in H3 as (y & Hy & E3 & C3).
  exists x, sg, y. repeat split; auto; try congruence.
Qed.

Lemma consumed_all s cs st' :
  rest st' = [] -> consumed (MState s cs) st' = s.
Proof.
  intros E. unfold consumed; cbn [rest]. rewrite E. cbn [length].
  rewrite Nat.sub_0_r. apply firstn_all.
Qed.

(** A successful [fullmatch] sets exactly one group, to the whole subject,
    and the subject has that group's shape. *)
Lemma fullmatch_shape s m :
  _fullmatch s = Some m ->
  exists sh, shape_ok sh /\ s = text sh /\ m = MState [] [(group_name sh, s)].
Proof.
  unfold _fullmatch, fullmatch. intros H.
  apply find_some in H as [H Hend].
  assert (rest m = []) as Em
    by (unfold at_end in Hend; destruct (rest m); [reflexivity|discriminate]).
  clear Hend. unfold pos_extended in H. cbn [run] in H.
  repeat (apply in_app_or in H as [H|H]);
    apply in_map_iff in H as (st' & <- & H); cbn [rest caps] in *;
    rewrite (consumed_all _ _ _ Em), Em.
  - apply run_pos in H as (x & Hx & E & C). cbn [rest caps] in *.
    rewrite Em, app_nil_r in E. subst s.
    exists (Simple x). rewrite C. repeat split; exact Hx.
  - apply run_pos_sign_pos in H as (x & sg & y & Hx & Hsg & Hy & E & C).
    cbn [rest caps] in *. rewrite Em, app_nil_r in E. subst s.
    exists (Intron x sg y). rewrite C.
    unfold shape_ok, is_sign, is_utr_symbol.
    repeat split; auto using in_class_two.
  - cbn [run] in H. apply in_flat_map in H as (st1 & H1 & H2).
    apply (run_class _ _ _) in H1 as (u & E1 & Hu & C1).
    apply run_pos in H2 as (x & Hx & E2 & C2). cbn [rest caps] in *.
    rewrite Em, app_nil_r in E2. rewrite E2 in E1. subst s.
    exists (Utr u x). rewrite C2, C1.
    unfold shape_ok, is_sign, is_utr_symbol.
    repeat split; auto using in_class_two.
  - cbn [run] in H. apply in_flat_map in H as (st1 & H1 & H2).
    apply (run_class _ _ _) in H1 as (u & E1 & Hu & C1).
    apply (run_pos_sign_pos _ _) in H2 as (x & sg & y & Hx & Hsg & Hy & E2 & C2).
    cbn [rest caps] in *. rewrite Em, app_nil_r in E2. rewrite E2 in E1.
    subst s. exists (UtrIntron u x sg y). rewrite C2, C1.
    unfold shape_ok, is_sign, is_utr_symbol.
    repeat split; auto using in_class_two.
Qed.

(** ** The matcher accepts every string of the four shapes *)

Lemma run_class_eq items c t cs :
  in_class items c = true ->
  run (Class items) (MState (c :: t) cs) = [MState t cs].
Proof. intros H. cbn [run rest caps]. now rewrite H. Qed.

Lemma star_iter_here step n st : In st (star_iter step n st).
Proof. destruct n; cbn; [auto | apply in_or_app; right; left; reflexivity]. Qed.

Lemma star_class_in items ds t cs n :
  forallb (in_class items) ds = true -> (length ds <= n)%nat ->
  In (MState t cs) (star_iter (run (Class items)) n (MState (ds ++ t) cs)).
Proof.
  revert n. induction ds as [|c ds IH]; intros n Hds Hn.
  - apply star_iter_here.
  - cbn in Hds. apply andb_true_iff in Hds as [Hc Hds].
    destruct n as [|n]; [cbn in Hn; lia|].
    cbn [star_iter app]. apply in_or_app. left.
    rewrite (run_class_eq _ _ _ _ Hc). cbn [flat_map rest].
    rewrite app_nil_r.
    replace (length (ds ++ t) <? length (c :: ds ++ t))%nat with true
      by (symmetry; apply Nat.ltb_lt; cbn [length]; lia).
    apply IH; [assumption | cbn [length] in Hn; lia].
Qed.

Lemma run_pos_in x t cs :
  number x -> In (MState t cs) (run pos (MState (x ++ t) cs)).
Proof.
  intros (d & ds & -> & Hd & Hds). unfold pos.
  change (run (Cat ?a ?b) ?st) with (flat_map (run b) (run a st)).
  cbn [app]. rewrite (run_class_eq _ _ _ _ Hd). cbn [flat_map].
  rewrite app_nil_r.
  change (run (Star ?r) ?st) with (star_iter (run r) (length (rest st)) st).
  apply star_class_in; [exact Hds|].
  cbn [rest]. rewrite length_app. lia.
Qed.

Lemma run_sign_in sg t cs :
  is_sign sg -> run sign_class (MState (sg :: t) cs) = [MState t cs].
Proof. intros [-> | ->]; reflexivity. Qed.

Lemma run_utr_in u t cs :
  is_utr_symbol u -> run utr_class (MState (u :: t) cs) = [MState t cs].
Proof. intros [-> | ->]; reflexivity. Qed.

Lemma run_pos_sign_pos_in x sg y t cs :
  number x -> is_sign sg -> number y ->
  In (MState t cs)
     (run (Cat pos (Cat sign_class pos)) (MState (x ++ sg :: y ++ t) cs)).
Proof.
  intros Hx Hsg Hy. cbn [run]. apply in_flat_map.
  exists (MState (sg :: y ++ t) cs). split; [now apply run_pos_in|].
  rewrite (run_sign_in _ _ _ Hsg). cbn [flat_map]. rewrite app_nil_r.
  now apply run_pos_in.
Qed.

Lemma in_group name r s :
  In (MState [] []) (run r (MState s [])) ->
  In (MState [] [(name, s)]) (run (Group name r) (MState s [])).
Proof.
  intros H. cbn [run]. apply in_map_iff. exists (MState [] []).
  split; [|exact H]. cbn [rest caps]. now rewrite consumed_all.
Qed.

Lemma fullmatch_some sh :
  shape_ok sh -> _fullmatch (text sh) <> None.
Proof.
  intros Hok Hnone. unfold _fullmatch, fullmatch in Hnone.
  assert (In (MState [] [(group_name sh, text sh)])
             (run pos_extended (MState (text sh) []))) as Hin.
  { unfold pos_extended. cbn [run].
    destruct sh as [x | x sg y | u x | u x sg y];
      cbn [shape_ok text group_name] in *.
    - apply in_or_app. left. apply (in_group _ pos).
      rewrite <- (app_nil_r x) at 1. now apply run_pos_in.
    - destruct Hok as (Hx & Hsg & Hy).
      apply in_or_app. right. apply in_or_app. left.
      apply (in_group _ (Cat pos (Cat sign_class pos))).
      rewrite <- (app_nil_r y) at 1. now apply run_pos_sign_pos_in.
    - destruct Hok as (Hu & Hx).
      do 2 (apply in_or_app; right). apply in_or_app. left.
      apply (in_group _ (Cat utr_class pos)). cbn [run].
      rewrite (run_utr_in _ _ _ Hu). cbn [flat_map]. rewrite app_nil_r.
      rewrite <- (app_nil_r x) at 1. now apply run_pos_in.
    - destruct Hok as (Hu & Hx & Hsg & Hy).
      do 3 (apply in_or_app; right).
      apply (in_group _ (Cat utr_class (Cat pos (Cat sign_class pos)))).
      cbn [run]. rewrite (run_utr_in _ _ _ Hu). cbn [flat_map].
      rewrite app_nil_r. rewrite <- (app_nil_r y) at 1.
      now apply (run_pos_sign_pos_in x sg y [] []). }
  apply (find_none _ _ Hnone) in Hin. discriminate.
Qed.

(** ** What the constructor does on each shape *)

Lemma init_shape p sh :
  shape_ok sh ->
  _fullmatch (of_string p) = Some (MState [] [(group_name sh, text sh)]) ->
  __init__ p = outcome sh.
Proof.
  intros Hok Hm. unfold __init__. rewrite Hm.
  unfold match_groupdict, groupdict.
  destruct sh as [x | x sg y | u x | u x sg y];
    cbn [caps group_name text lookup String.eqb Ascii.eqb Bool.eqb outcome];
    cbn [shape_ok] in Hok.
  - rewrite (int_number _ Hok). reflexivity.
  - destruct Hok as (Hx & [-> | ->] & Hy); unfold signed.
    + rewrite (contains_plus _ _ Hx), unpack2_numbers by (cbn; auto; lia).
      reflexivity.
    + destruct (contains_minus _ _ Hx Hy) as [-> ->].
      rewrite unpack2_numbers by (cbn; auto; lia). reflexivity.
  - destruct Hok as ([-> | ->] & Hx); unfold side, slice_from1;
      cbn [startswith tl Ascii.eqb Bool.eqb bind];
      rewrite (int_number _ Hx); reflexivity.
  - destruct Hok as ([-> | ->] & Hx & [-> | ->] & Hy);
      unfold side, slice_from1;
      cbn [startswith tl Ascii.eqb Bool.eqb bind].
    + rewrite (contains_plus _ _ Hx), unpack2_numbers by (cbn; auto; lia).
      reflexivity.
    + destruct (contains_minus _ _ Hx Hy) as [-> _]. reflexivity.
    + rewrite (contains_plus _ _ Hx), unpack2_numbers by (cbn; auto; lia).
      reflexivity.
    + destruct (contains_minus _ _ Hx Hy) as [-> _]. reflexivity.
Qed.

(** Every call of the constructor is of one of two kinds: no match and the
    [ValueError] naming the string, or a match of one shape and that shape's
    outcome. *)
Lemma init_cases p :
  __init__ p
    = Raise (ValueError ("invalid variant position string '" ++ p ++ "'"))
  \/ exists sh, shape_ok sh /\ of_string p = text sh /\ __init__ p = outcome sh.
Proof.
  destruct (_fullmatch (of_string p)) as [m|] eqn:Hm.
  - right. destruct (fullmatch_shape _ _ Hm) as (sh & Hok & E & ->).
    exists sh. repeat split; auto. apply init_shape; auto.
    rewrite Hm, E. reflexivity.
  - left. unfold __init__. rewrite Hm. reflexivity.
Qed.

(** The constructor on a string of a given shape. *)
Lemma init_text sh :
  shape_ok sh -> __init__ (to_string (text sh)) = outcome sh.
Proof.
  intros Hok.
  assert (of_string (to_string (text sh)) = text sh) as E
    by apply list_ascii_of_string_of_list_ascii.
  destruct (_fullmatch (text sh)) as [m|] eqn:Hm;
    [|now apply fullmatch_some in Hm].
  destruct (fullmatch_shape _ _ Hm) as (sh' & Hok' & Et & ->).
  rewrite (shape_unique _ _ Hok Hok' Et) in *.
  apply init_shape; [assumption|]. now rewrite E, Hm, <- Et.
Qed.


(** A UTR-intronic string with the sign [-] never is: the constructor
    leaves through [TypeError]. *)
Lemma utr_intron_minus u x y :
  is_utr_symbol u -> number x -> number y ->
  __init__ (to_string (u :: x ++ "-"%char :: y)) = Raise TypeError.
Proof.
  intros Hu Hx Hy.
  apply (init_text (UtrIntron u x "-" y)). cbn. unfold is_sign. auto.
Qed.

(** The ways the constructor can fail: the [ValueError] naming the string,
    or [TypeError], the latter exactly on the UTR-intronic strings with the
    sign [-]. *)
Lemma init_failure_modes p e :
  __init__ p = Raise e ->
  e = ValueError ("invalid variant position string '" ++ p ++ "'")
  \/ (e = TypeError
      /\ exists u x y, is_utr_symbol u /\ number x /\ number y
                       /\ of_string p = u :: x ++ "-"%char :: y).
Proof.
  intros H. destruct (init_cases p) as [E | (sh & Hok & Et & E)];
    rewrite E in H; [left; congruence|].
  right. destruct sh as [x | x sg y | u x | u x sg y];
    cbn [outcome] in H; try discriminate.
  destruct Hok as (Hu & Hx & [-> | ->] & Hy); cbn in H; [discriminate|].
  split; [congruence|]. exists u, x, y. auto.
Qed.

(** ** Constructed positions *)

Lemma side_cases u : side u = "3p"%string \/ side u = "5p"%string.
Proof. unfold side. destruct (Ascii.eqb u "*"); auto. Qed.

Lemma outcome_constructed sh v : outcome sh = Ok v -> constructed v.
Proof.
  destruct sh as [x | x sg y | u x | u x sg y]; cbn [outcome].
  - intros [= <-]. constructor.
  - intros [= <-]. constructor.
  - intros [= <-]. constructor. apply side_cases.
  - destruct (Ascii.eqb sg "+"); [|discriminate].
    intros [= <-]. constructor. apply side_cases.
Qed.

Lemma init_constructed p v : __init__ p = Ok v -> constructed v.
Proof.
  intros H. destruct (init_cases p) as [E | (sh & _ & _ & E)];
    rewrite E in H; [discriminate|].
  eapply outcome_constructed; eassumption.
Qed.

(** Each of the four combinations is produced by some string. *)
Lemma populated_all_reached :
  exists v1 v2 v3 v4,
    __init__ "88" = Ok v1 /\ populated v1 = (true, false, false, false)
    /\ __init__ "88+7" = Ok v2 /\ populated v2 = (true, true, false, false)
    /\ __init__ "*12" = Ok v3 /\ populated v3 = (false, false, true, true)
    /\ __init__ "-10+5" = Ok v4 /\ populated v4 = (false, true, true, true).
Proof.
  do 4 eexists. repeat split; vm_compute; reflexivity.
Qed.

(** ** Comparisons *)

Lemma int_eq_refl x : int_eq x x = true.
Proof. destruct x; cbn; [apply Z.eqb_refl | reflexivity]. Qed.

Lemma str_eq_refl x : str_eq x x = true.
Proof. destruct x; cbn; [apply String.eqb_refl | reflexivity]. Qed.

(** The simple case of [is_adjacent], for comparison: two plain positions
    get a truth value. *)
Lemma is_adjacent_simple n m :
  is_adjacent (mkVP (Some n) None None None) (mkVP (Some m) None None None)
  = Ok (PyBool (Z.abs (n - m) =? 1)).
Proof. unfold is_adjacent. cbn. destruct (Z.abs (n - m) =? 1); reflexivity. Qed.

(** Outside the constructor's range the last branch of [__lt__] does fall
    through: the nine combinations are covered only because [utr] is never
    anything but [None], ["5p"] or ["3p"]. *)
Lemma lt_falls_through_elsewhere :
  __lt__ (mkVP None None (Some "x"%string) (Some 1)) (mkVP (Some 1) None None None)
  = Ok PyNone.
Proof. reflexivity. Qed.

(** The spot checks of the side order. *)
Lemma utr_side_spot_checks :
  lt_str "-12" "5" = Ok (PyBool true)
  /\ lt_str "5" "*3" = Ok (PyBool true)
  /\ lt_str "-12" "*3" = Ok (PyBool true)
  /\ lt_str "*3" "5" = Ok (PyBool false)
  /\ lt_str "5" "-12" = Ok (PyBool false)
  /\ lt_str "*3" "-12" = Ok (PyBool false).
Proof. repeat split; vm_compute; reflexivity. Qed.

(** The two sides of the intronic tie-break in general: at the same anchor, the bare
    boundary and a negative offset are each less than the other, and the
    bare boundary and a positive offset are not ordered at all. *)
Lemma lt_boundary_negative n k :
  k < 0 ->
  __lt__ (mkVP (Some n) None None None) (mkVP (Some n) (Some k) None None)
  = Ok (PyBool true)
  /\ __lt__ (mkVP (Some n) (Some k) None None) (mkVP (Some n) None None None)
     = Ok (PyBool true).
Proof.
  intros Hk. apply Z.ltb_lt in Hk.
  unfold __lt__, intron_lt; cbn. rewrite Z.eqb_refl; cbn. now rewrite Hk.
Qed.

Lemma lt_boundary_positive n k :
  0 < k ->
  __lt__ (mkVP (Some n) None None None) (mkVP (Some n) (Some k) None None)
  = Ok (PyBool false)
  /\ __lt__ (mkVP (Some n) (Some k) None None) (mkVP (Some n) None None None)
     = Ok (PyBool false).
Proof.
  intros Hk. assert ((k <? 0) = false) as E by (apply Z.ltb_ge; lia).
  unfold __lt__, intron_lt; cbn. rewrite Z.eqb_refl; cbn. now rewrite E.
Qed.

(* ------------------------------------------------------------------ *)
(** * The claims *)

(** C1: the code at the claim's own example: constructing ["*10-5"] does not
    yield utr ["3p"], utr_position 10, intronic_position -5; the constructor
    raises [TypeError]. *)
Theorem utr_intron_minus_example :
  __init__ "*10-5" = Raise TypeError
  /\ __init__ "*10-5"
     <> Ok (mkVP None (Some (-5)) (Some "3p"%string) (Some 10)).
Proof. split; [vm_compute; reflexivity | discriminate]. Qed.

(** C2: the code at ["-10-5"]: the constructor neither succeeds nor raises
    the [ValueError] that names the string; it raises [TypeError]. *)
Theorem init_third_outcome :
  __init__ "-10-5" = Raise TypeError
  /\ (forall v, __init__ "-10-5" <> Ok v)
  /\ (forall msg, __init__ "-10-5" <> Raise (ValueError msg)).
Proof. repeat split; intros; discriminate. Qed.

(** C3: the code at two pairs of constructed positions.  For ["88"] and
    ["88-7"] both [a < b] and [b < a] are [True]; for ["88"] and ["88+7"]
    neither is and the two are not equal. *)
Theorem lt_not_strict_order :
  (exists a b,
     __init__ "88" = Ok a /\ __init__ "88-7" = Ok b
     /\ __lt__ a b = Ok (PyBool true) /\ __lt__ b a = Ok (PyBool true))
  /\ (exists a b,
       __init__ "88" = Ok a /\ __init__ "88+7" = Ok b
       /\ __lt__ a b = Ok (PyBool false) /\ __lt__ b a = Ok (PyBool false)
       /\ __eq__ a b = false).
Proof.
  split; do 2 eexists; repeat split; vm_compute; reflexivity.
Qed.

(** C4: the code at the two comparisons of the claim.  The first holds; the
    second, the bare boundary against a positive offset at the same anchor,
    is [False]. *)
Theorem boundary_between_offsets_fails :
  lt_str "88-7" "88" = Ok (PyBool true)
  /\ lt_str "88" "88+7" = Ok (PyBool false).
Proof. split; vm_compute; reflexivity. Qed.

(** C5: for two positions with the same UTR side, [__lt__] first compares
    the primary number and consults the intronic positions only when the
    primary numbers are equal.  In that case: equal intronic positions (both
    absent included) give [False]; an absent one on the left gives [True]
    exactly when the right one is negative; an absent one on the right gives
    [True] exactly when the left one is negative; two present, unequal ones
    are compared as numbers. *)
Theorem intron_tie_break (a b : VariantPosition) :
  utr a = utr b ->
  (primary a = primary b ->
     (intronic_position a = intronic_position b ->
        __lt__ a b = Ok (PyBool false))
     /\ (forall k, intronic_position a = None -> intronic_position b = Some k ->
           __lt__ a b = Ok (PyBool (k <? 0)))
     /\ (forall j, intronic_position a = Some j -> intronic_position b = None ->
           __lt__ a b = Ok (PyBool (j <? 0)))
     /\ (forall j k, intronic_position a = Some j ->
           intronic_position b = Some k -> j <> k ->
           __lt__ a b = Ok (PyBool (j <? k))))
  /\ (forall x y, primary a = Some x -> primary b = Some y -> x <> y ->
        __lt__ a b = Ok (PyBool (x <? y))).
Proof.
  destruct a as [pa ia ua qa], b as [pb ib ub qb]; cbn [utr].
  intros <-. unfold primary, __lt__, intron_lt. cbn.
  rewrite str_eq_refl. split.
  - intros Hp.
    assert (int_eq (match ua with Some _ => qa | None => pa end)
                   (match ua with Some _ => qb | None => pb end) = true)
      as Hq by (rewrite Hp; apply int_eq_refl).
    repeat split.
    + intros ->. destruct ua; rewrite Hq, int_eq_refl; reflexivity.
    + intros k -> ->. destruct ua; rewrite Hq; reflexivity.
    + intros j -> ->. destruct ua; rewrite Hq; reflexivity.
    + intros j k -> -> Hne. apply Z.eqb_neq in Hne.
      destruct ua; rewrite Hq; cbn; rewrite Hne; reflexivity.
  - intros x y Hx Hy Hne. apply Z.eqb_neq in Hne.
    destruct ua; subst; cbn; rewrite Hne; reflexivity.
Qed.

Lemma intron_tie_break_witness :
  utr (mkVP (Some 88) None None None) = utr (mkVP (Some 88) (Some (-7)) None None)
  /\ __lt__ (mkVP (Some 88) None None None) (mkVP (Some 88) (Some (-7)) None None)
     = Ok (PyBool (-7 <? 0)).
Proof.
  split; [reflexivity|].
  exact (proj1 (proj2 (proj1
           (intron_tie_break (mkVP (Some 88) None None None)
                             (mkVP (Some 88) (Some (-7)) None None) eq_refl)
           eq_refl))
         (-7) eq_refl eq_refl).
Defined.

(** C6: two constructed positions with different UTR sides are ordered by
    side alone, 5' UTR before non-UTR before 3' UTR: [a < b] is [True] when
    the side of [a] comes first and [False] otherwise. *)
Theorem lt_utr_sides (s1 s2 : string) (a b : VariantPosition) :
  __init__ s1 = Ok a -> __init__ s2 = Ok b ->
  utr a <> utr b ->
  __lt__ a b = Ok (PyBool (side_rank (utr a) <? side_rank (utr b)))
  /\ (utr a = Some "5p"%string -> __lt__ a b = Ok (PyBool true))
  /\ (utr b = Some "3p"%string -> __lt__ a b = Ok (PyBool true)).
Proof.
  intros Ha Hb. apply init_constructed in Ha, Hb.
  destruct Ha as [n | n k | u n [-> | ->] | u n k [-> | ->]];
    destruct Hb as [m | m j | w m [-> | ->] | w m j [-> | ->]];
    cbn [utr]; intros Hne; try (exfalso; apply Hne; reflexivity);
    repeat split; intros; try discriminate; reflexivity.
Qed.

Lemma lt_utr_sides_witness :
  (__init__ "-12" = Ok (mkVP None None (Some "5p"%string) (Some 12))
   /\ __init__ "5" = Ok (mkVP (Some 5) None None None)
   /\ utr (mkVP None None (Some "5p"%string) (Some 12))
      <> utr (mkVP (Some 5) None None None))
  /\ __lt__ (mkVP None None (Some "5p"%string) (Some 12))
            (mkVP (Some 5) None None None) = Ok (PyBool true).
Proof.
  split; [repeat split; try (vm_compute; reflexivity); discriminate|].
  refine (proj1 (lt_utr_sides "-12" "5" _ _ _ _ _));
    try (vm_compute; reflexivity); discriminate.
Defined.

(** C7: each of the strings [""], ["12a"], ["0"], ["+5"], ["12++5"] and
    ["**3"] is rejected by the whole-string match: the constructor raises the
    [ValueError] that names the string. *)
Theorem grammar_rejection :
  __init__ "" = Raise (ValueError "invalid variant position string ''")
  /\ __init__ "12a" = Raise (ValueError "invalid variant position string '12a'")
  /\ __init__ "0" = Raise (ValueError "invalid variant position string '0'")
  /\ __init__ "+5" = Raise (ValueError "invalid variant position string '+5'")
  /\ __init__ "12++5"
     = Raise (ValueError "invalid variant position string '12++5'")
  /\ __init__ "**3" = Raise (ValueError "invalid variant position string '**3'").
Proof. repeat split; vm_compute; reflexivity. Qed.

(** C8: a successfully constructed position has one of exactly four
    combinations of populated attributes: position only; position and
    intronic position; UTR side and UTR position; UTR side, UTR position and
    intronic position. *)
Theorem populated_combinations (pos_str : string) (v : VariantPosition) :
  __init__ pos_str = Ok v ->
  populated v = (true, false, false, false)
  \/ populated v = (true, true, false, false)
  \/ populated v = (false, false, true, true)
  \/ populated v = (false, true, true, true).
Proof.
  intros H. apply init_constructed in H.
  destruct H; unfold populated; cbn; auto.
Qed.

Lemma populated_combinations_witness :
  __init__ "88-7" = Ok (mkVP (Some 88) (Some (-7)) None None)
  /\ (populated (mkVP (Some 88) (Some (-7)) None None) = (true, false, false, false)
      \/ populated (mkVP (Some 88) (Some (-7)) None None) = (true, true, false, false)
      \/ populated (mkVP (Some 88) (Some (-7)) None None) = (false, false, true, true)
      \/ populated (mkVP (Some 88) (Some (-7)) None None) = (false, true, true, true)).
Proof.
  split; [vm_compute; reflexivity|].
  apply (populated_combinations "88-7"). vm_compute; reflexivity.
Defined.

(** C9: when at least one of two positions is extended, [is_adjacent]
    returns [None]: no exception is raised and the value is neither [True]
    nor [False].  This holds for all attribute values, so in particular for
    every pair of constructed positions. *)
Theorem is_adjacent_extended (self other : VariantPosition) :
  is_extended self = true \/ is_extended other = true ->
  is_adjacent self other = Ok PyNone
  /\ forall t, is_adjacent self other <> Ok (PyBool t).
Proof.
  intros H.
  assert (is_adjacent self other = Ok PyNone) as E.
  { unfold is_adjacent. destruct H as [-> | ->]; cbn [negb andb];
      [|rewrite andb_false_r]; reflexivity. }
  split; [exact E|]. intros t. rewrite E. discriminate.
Qed.

Lemma is_adjacent_extended_witness :
  (__init__ "88+7" = Ok (mkVP (Some 88) (Some 7) None None)
   /\ __init__ "10" = Ok (mkVP (Some 10) None None None))
  /\ is_adjacent (mkVP (Some 88) (Some 7) None None)
                 (mkVP (Some 10) None None None) = Ok PyNone
  /\ forall t, is_adjacent (mkVP (Some 88) (Some 7) None None)
                           (mkVP (Some 10) None None None) <> Ok (PyBool t).
Proof.
  split; [split; vm_compute; reflexivity|].
  apply (is_adjacent_extended (mkVP (Some 88) (Some 7) None None)
                              (mkVP (Some 10) None None None)).
  left. reflexivity.
Defined.

(** C10: on two constructed positions [__lt__] returns [True] or [False]:
    it raises nothing and never reaches its end without a [return]. *)
Theorem lt_returns_bool (s1 s2 : string) (a b : VariantPosition) :
  __init__ s1 = Ok a -> __init__ s2 = Ok b ->
  exists t : bool, __lt__ a b = Ok (PyBool t).
Proof.
  intros Ha Hb. apply init_constructed in Ha, Hb.
  destruct Ha as [n | n k | u n [-> | ->] | u n k [-> | ->]];
    destruct Hb as [m | m j | w m [-> | ->] | w m j [-> | ->]];
    unfold __lt__, intron_lt, str_eq, int_eq, opt_eqb, py_lt; cbn;
    case_ifs; eauto.
Qed.

Lemma lt_returns_bool_witness :
  (__init__ "-12" = Ok (mkVP None None (Some "5p"%string) (Some 12))
   /\ __init__ "88+7" = Ok (mkVP (Some 88) (Some 7) None None))
  /\ exists t : bool,
       __lt__ (mkVP None None (Some "5p"%string) (Some 12))
              (mkVP (Some 88) (Some 7) None None) = Ok (PyBool t).
Proof.
  split; [split; vm_compute; reflexivity|].
  apply (lt_returns_bool "-12" "88+7"); vm_compute; reflexivity.
Defined.

(* ------------------------------------------------------------------ *)
(** * Further properties of the constructor and the comparisons *)

(** ** The value of a digit run *)

Lemma fold_digits_acc ds acc :
  fold_left (fun a c => 10 * a + digit_val c) ds acc
  = acc * 10 ^ Z.of_nat (length ds)
    + fold_left (fun a c => 10 * a + digit_val c) ds 0.
Proof.
  revert acc. induction ds as [|d ds IH]; intros acc.
  - cbn. lia.
  - cbn [fold_left length]. rewrite IH, (IH (10 * 0 + digit_val d)).
    rewrite Nat2Z.inj_succ, Z.pow_succ_r by lia. ring.
Qed.

Lemma digits_val_cons d ds :
  digits_val (d :: ds)
  = digit_val d * 10 ^ Z.of_nat (length ds) + digits_val ds.
Proof.
  unfold digits_val. cbn [fold_left]. rewrite fold_digits_acc. ring.
Qed.

Lemma digit_val_range c : digit c = true -> 0 <= digit_val c <= 9.
Proof. intros H. apply digit_bounds in H. unfold digit_val. lia. Qed.

Lemma nonzero_digit_val c : nonzero_digit c = true -> 1 <= digit_val c <= 9.
Proof.
  intros H. apply in_class_range in H.
  change (nat_of_ascii "1") with 49%nat in H.
  change (nat_of_ascii "9") with 57%nat in H. unfold digit_val. lia.
Qed.

Lemma digits_val_bound ds :
  forallb digit ds = true ->
  0 <= digits_val ds < 10 ^ Z.of_nat (length ds).
Proof.
  induction ds as [|d ds IH]; intros H.
  - cbn. lia.
  - cbn [forallb] in H. apply andb_true_iff in H as [Hd Hds].
    specialize (IH Hds). apply digit_val_range in Hd.
    rewrite digits_val_cons. cbn [length].
    rewrite Nat2Z.inj_succ, Z.pow_succ_r by lia. nia.
Qed.

(** A number of [n] digits lies in [[10^(n-1), 10^n)]. *)
Lemma number_bounds x :
  number x ->
  10 ^ (Z.of_nat (length x) - 1) <= digits_val x < 10 ^ Z.of_nat (length x).
Proof.
  intros Hx. split; [|apply digits_val_bound, number_digits, Hx].
  destruct Hx as (d & ds & -> & Hd & Hds).
  apply nonzero_digit_val in Hd. apply digits_val_bound in Hds.
  rewrite digits_val_cons. cbn [length].
  replace (Z.of_nat (S (length ds)) - 1) with (Z.of_nat (length ds)) by lia.
  nia.
Qed.

Lemma number_positive x : number x -> 1 <= digits_val x.
Proof.
  intros Hx. pose proof (number_bounds x Hx) as [H _].
  assert (0 < 10 ^ (Z.of_nat (length x) - 1)); [|lia].
  apply Z.pow_pos_nonneg; [lia|].
  destruct Hx as (d & ds & -> & _). cbn [length]. lia.
Qed.

Lemma digit_val_inj c c' : digit_val c = digit_val c' -> c = c'.
Proof.
  unfold digit_val. intros H.
  assert (nat_of_ascii c = nat_of_ascii c') as E by lia.
  rewrite <- (ascii_nat_embedding c), <- (ascii_nat_embedding c'), E.
  reflexivity.
Qed.

Lemma digits_val_inj_length xs ys :
  forallb digit xs = true -> forallb digit ys = true ->
  length xs = length ys -> digits_val xs = digits_val ys -> xs = ys.
Proof.
  revert ys. induction xs as [|c xs IH]; intros [|c' ys] Hx Hy Hl Hv;
    try discriminate; [reflexivity|].
  cbn [forallb] in Hx, Hy.
  apply andb_true_iff in Hx as [Hc Hxs], Hy as [Hc' Hys].
  injection Hl as Hl. rewrite !digits_val_cons, Hl in Hv.
  pose proof (digits_val_bound _ Hxs) as B.
  pose proof (digits_val_bound _ Hys) as B'. rewrite Hl in B.
  apply digit_val_range in Hc, Hc'.
  assert (digit_val c = digit_val c') as Ec by nia.
  rewrite Ec in Hv. f_equal; [now apply digit_val_inj|].
  apply IH; auto. lia.
Qed.

(** Two numbers with the same value are the same string. *)
Lemma number_val_inj x y :
  number x -> number y -> digits_val x = digits_val y -> x = y.
Proof.
  intros Hx Hy Hv.
  apply digits_val_inj_length; auto using number_digits.
  pose proof (number_bounds x Hx) as Bx.
  pose proof (number_bounds y Hy) as By'.
  destruct (Nat.lt_trichotomy (length x) (length y)) as [L | [L | L]];
    [exfalso | exact L | exfalso].
  - assert (10 ^ Z.of_nat (length x) <= 10 ^ (Z.of_nat (length y) - 1))
      by (apply Z.pow_le_mono_r; lia). lia.
  - assert (10 ^ Z.of_nat (length y) <= 10 ^ (Z.of_nat (length x) - 1))
      by (apply Z.pow_le_mono_r; lia). lia.
Qed.

(** ** The constructor on each shape of the grammar *)

Lemma is_number_number x : is_number x = true -> number x.
Proof.
  destruct x as [|d ds]; [discriminate|]. cbn [is_number].
  intros H. apply andb_true_iff in H as [Hd Hds]. exists d, ds. auto.
Qed.










(** X5: a UTR symbol, a number, the sign [-] and a number are never
    constructed: whatever the two numbers, the constructor raises
    [TypeError]. *)
Theorem init_utr_intron_minus (x y : str) :
  is_number x = true -> is_number y = true ->
  __init__ (to_string ("*"%char :: x ++ "-"%char :: y)) = Raise TypeError
  /\ __init__ (to_string ("-"%char :: x ++ "-"%char :: y)) = Raise TypeError.
Proof.
  intros Hx Hy. apply is_number_number in Hx, Hy. split.
  - apply (utr_intron_minus "*" x y); unfold is_utr_symbol; auto.
  - apply (utr_intron_minus "-" x y); unfold is_utr_symbol; auto.
Qed.

Lemma init_utr_intron_minus_witness :
  (is_number (of_string "3") = true /\ is_number (of_string "41") = true)
  /\ __init__ (to_string ("*"%char :: of_string "3" ++ "-"%char :: of_string "41"))
     = Raise TypeError
  /\ __init__ (to_string ("-"%char :: of_string "3" ++ "-"%char :: of_string "41"))
     = Raise TypeError.
Proof.
  split; [split; reflexivity|].
  apply (init_utr_intron_minus (of_string "3") (of_string "41")); reflexivity.
Defined.

(** ** Failures of the constructor *)

Lemma outcome_not_value_error sh msg : outcome sh <> Raise (ValueError msg).
Proof.
  destruct sh as [x | x sg y | u x | u x sg y]; cbn [outcome];
    try discriminate.
  destruct (Ascii.eqb sg "+"); discriminate.
Qed.

Lemma init_of_shape p sh :
  shape_ok sh -> of_string p = text sh -> __init__ p = outcome sh.
Proof.
  intros Hok E. rewrite <- (init_text sh Hok), <- E. unfold to_string, of_string.
  now rewrite string_of_list_ascii_of_string.
Qed.

(** X6: the constructor raises the [ValueError] naming the string exactly
    when the string has none of the four shapes of the grammar. *)
Theorem init_rejects_iff (p : string) :
  __init__ p
    = Raise (ValueError ("invalid variant position string '" ++ p ++ "'"))
  <-> ~ exists sh, shape_ok sh /\ of_string p = text sh.
Proof.
  split.
  - intros H (sh & Hok & E). rewrite (init_of_shape p sh Hok E) in H.
    exact (outcome_not_value_error _ _ H).
  - intros H. destruct (init_cases p) as [E | (sh & Hok & Et & _)];
      [exact E|]. exfalso. apply H. exists sh. auto.
Qed.



(** X8: the three defensive [raise] statements of the constructor are never
    reached: no string makes it raise ["unexpected intronic position
    separator"], ["unexpected UTR symbol"] or ["unexpected position
    format"]. *)
Theorem init_defensive_raises_unreachable (p : string) :
  __init__ p <> Raise (ValueError "unexpected intronic position separator")
  /\ __init__ p <> Raise (ValueError "unexpected UTR symbol")
  /\ __init__ p <> Raise (ValueError "unexpected position format").
Proof.
  repeat split; intros H;
    destruct (init_failure_modes p _ H) as [E | (E & _)];
    cbn in E; discriminate.
Qed.

(** ** Values of the attributes *)

Lemma init_values p v :
  __init__ p = Ok v ->
  (forall n, position v = Some n -> 1 <= n)
  /\ (forall n, utr_position v = Some n -> 1 <= n)
  /\ (forall k, intronic_position v = Some k -> k <> 0).
Proof.
  intros H. destruct (init_cases p) as [E | (sh & Hok & _ & E)];
    rewrite E in H; [discriminate|].
  destruct sh as [x | x sg y | u x | u x sg y]; cbn [outcome shape_ok] in *.
  - injection H as <-. pose proof (number_positive x Hok).
    repeat split; cbn; intros ? [= <-]; lia.
  - destruct Hok as (Hx & _ & Hy). injection H as <-.
    pose proof (number_positive x Hx). pose proof (number_positive y Hy).
    unfold signed. repeat split; cbn; intros ? [= <-]; try lia.
    destruct (Ascii.eqb sg "+"); lia.
  - destruct Hok as (_ & Hx). injection H as <-.
    pose proof (number_positive x Hx).
    repeat split; cbn; intros ? [= <-]; lia.
  - destruct Hok as (_ & Hx & _ & Hy).
    destruct (Ascii.eqb sg "+"); [|discriminate]. injection H as <-.
    pose proof (number_positive x Hx). pose proof (number_positive y Hy).
    repeat split; cbn; intros ? [= <-]; lia.
Qed.

(** X9: in a constructed position [position] and [utr_position], when
    present, are at least 1, and [intronic_position], when present, is not
    0. *)
Theorem init_attribute_values (p : string) (v : VariantPosition) :
  __init__ p = Ok v ->
  (forall n, position v = Some n -> 1 <= n)
  /\ (forall n, utr_position v = Some n -> 1 <= n)
  /\ (forall k, intronic_position v = Some k -> k <> 0).
Proof. apply init_values. Qed.

Lemma init_attribute_values_witness :
  __init__ "88-7" = Ok (mkVP (Some 88) (Some (-7)) None None)
  /\ (forall n, position (mkVP (Some 88) (Some (-7)) None None) = Some n -> 1 <= n)
  /\ (forall n, utr_position (mkVP (Some 88) (Some (-7)) None None) = Some n
                -> 1 <= n)
  /\ (forall k, intronic_position (mkVP (Some 88) (Some (-7)) None None) = Some k
                -> k <> 0).
Proof.
  split; [vm_compute; reflexivity|].
  apply (init_attribute_values "88-7"). vm_compute; reflexivity.
Defined.

(** ** The classification read off the string *)

Lemma number_startswith x c t :
  number x -> (nat_of_ascii c < 48)%nat -> startswith c (x ++ t) = false.
Proof.
  intros (d & ds & -> & Hd & _) Hc. cbn [app startswith].
  rewrite Ascii.eqb_sym.
  apply digit_not_punct; auto using nonzero_digit_digit.
Qed.

Lemma number_tl x t : number x -> tl (x ++ t) = tl x ++ t.
Proof. now intros (d & ds & -> & _). Qed.

Lemma number_tl_no_punct x c :
  number x -> (nat_of_ascii c < 48)%nat -> contains c (tl x) = false.
Proof.
  intros Hx Hc. pose proof (number_digits x Hx) as Hd.
  destruct Hx as (d & ds & -> & _). cbn [tl]. cbn [forallb] in Hd.
  apply andb_true_iff in Hd as [_ Hd]. now apply digits_no_punct.
Qed.

Lemma number_all_digits x : number x -> forallb is_digit x = true.
Proof.
  intros Hx. apply forallb_forall. intros c Hc. apply digit_is_digit.
  revert c Hc. apply forallb_forall. now apply number_digits.
Qed.

Lemma not_all_digits x c y :
  is_digit c = false -> forallb is_digit (x ++ c :: y) = false.
Proof.
  intros Hc. rewrite forallb_app. cbn [forallb]. rewrite Hc.
  apply andb_false_r.
Qed.

Lemma classification_of_shape sh v :
  shape_ok sh -> outcome sh = Ok v ->
  is_utr v = (startswith "*" (text sh) || startswith "-" (text sh))
  /\ is_intronic v = (contains "+" (slice_from1 (text sh))
                      || contains "-" (slice_from1 (text sh)))
  /\ is_extended v = negb (forallb is_digit (text sh)).
Proof.
  assert (forall c, c = "+"%char \/ c = "-"%char \/ c = "*"%char ->
                    (nat_of_ascii c < 48)%nat /\ is_digit c = false) as P
    by (intros c [-> | [-> | ->]]; split; cbn; (lia || reflexivity)).
  unfold slice_from1, is_extended.
  destruct sh as [x | x sg y | u x | u x sg y]; cbn [shape_ok outcome text].
  - intros Hx [= <-]. cbn [is_utr is_intronic utr intronic_position orb].
    rewrite <- (app_nil_r x) at 1 2.
    rewrite !number_startswith, !number_tl_no_punct, number_all_digits;
      auto; apply P; auto.
  - intros (Hx & Hsg & Hy) [= <-].
    cbn [is_utr is_intronic utr intronic_position orb].
    rewrite !number_startswith, number_tl, !contains_app by (auto; apply P; auto).
    rewrite not_all_digits by (destruct Hsg as [-> | ->]; reflexivity).
    destruct Hsg as [-> | ->]; repeat split;
      rewrite ?contains_here, ?orb_true_r; reflexivity.
  - intros ([-> | ->] & Hx) [= <-];
      cbn [is_utr is_intronic utr intronic_position orb tl startswith
             forallb andb negb Ascii.eqb Bool.eqb];
      rewrite !digits_no_punct by (auto using number_digits; cbn; lia);
      repeat split; reflexivity.
  - intros (Hu & Hx & Hsg & Hy).
    destruct (Ascii.eqb_spec sg "+") as [-> | Hne]; [|discriminate].
    intros [= <-].
    cbn [is_utr is_intronic utr intronic_position orb tl].
    rewrite contains_app, contains_here, orb_true_r.
    change (u :: x ++ "+"%char :: y) with ([u] ++ x ++ "+"%char :: y).
    destruct Hu as [-> | ->]; repeat split; reflexivity.
Qed.

(** X10: for a constructed position the three predicates can be read off the
    string: [is_utr] holds exactly when it starts with [*] or [-],
    [is_intronic] exactly when a [+] or [-] occurs after its first character,
    [is_extended] exactly when it is not made of digits only. *)
Theorem classification_by_text (p : string) (v : VariantPosition) :
  __init__ p = Ok v ->
  is_utr v = (startswith "*" (of_string p) || startswith "-" (of_string p))
  /\ is_intronic v = (contains "+" (slice_from1 (of_string p))
                      || contains "-" (slice_from1 (of_string p)))
  /\ is_extended v = negb (forallb is_digit (of_string p)).
Proof.
  intros H. destruct (init_cases p) as [E | (sh & Hok & Et & E)];
    rewrite E in H; [discriminate|].
  rewrite Et. now apply classification_of_shape.
Qed.

Lemma classification_by_text_witness :
  __init__ "-10+5" = Ok (mkVP None (Some 5) (Some "5p"%string) (Some 10))
  /\ is_utr (mkVP None (Some 5) (Some "5p"%string) (Some 10)) = true
  /\ is_intronic (mkVP None (Some 5) (Some "5p"%string) (Some 10)) = true
  /\ is_extended (mkVP None (Some 5) (Some "5p"%string) (Some 10)) = true.
Proof.
  split; [vm_compute; reflexivity|].
  apply (classification_by_text "-10+5"). vm_compute; reflexivity.
Defined.

(** ** Equality *)

Lemma int_eq_true x y : int_eq x y = true <-> x = y.
Proof.
  destruct x as [a|], y as [b|]; cbn; split; intros H;
    try discriminate; try reflexivity.
  - apply Z.eqb_eq in H. now subst.
  - injection H as ->. apply Z.eqb_refl.
Qed.

Lemma str_eq_true x y : str_eq x y = true <-> x = y.
Proof.
  destruct x as [a|], y as [b|]; cbn; split; intros H;
    try discriminate; try reflexivity.
  - apply String.eqb_eq in H. now subst.
  - injection H as ->. apply String.eqb_refl.
Qed.

Lemma eq_true_iff a b : __eq__ a b = true <-> a = b.
Proof.
  unfold __eq__. rewrite !andb_true_iff, !int_eq_true, str_eq_true.
  destruct a, b; cbn. split.
  - intros [[[-> ->] ->] ->]. reflexivity.
  - intros [= -> -> -> ->]. auto.
Qed.


(** ** Different strings, different positions *)

Ltac note_positive :=
  repeat match goal with
         | H : number ?x |- _ =>
             lazymatch goal with
             | _ : 1 <= digits_val x |- _ => fail
             | _ => pose proof (number_positive x H)
             end
         end.

Lemma outcome_inj sh sh' v :
  shape_ok sh -> shape_ok sh' ->
  outcome sh = Ok v -> outcome sh' = Ok v -> sh = sh'.
Proof.
  intros Hok Hok' H H'.
  destruct sh as [x | x sg y | u x | u x sg y],
           sh' as [x' | x' sg' y' | u' x' | u' x' sg' y'];
    cbn [outcome shape_ok] in *;
    repeat match goal with H : _ /\ _ |- _ => destruct H end;
    repeat match goal with H : is_sign _ |- _ => destruct H as [-> | ->] end;
    repeat match goal with
           | H : is_utr_symbol _ |- _ => destruct H as [-> | ->]
           end;
    unfold signed, side in H, H'; cbn [Ascii.eqb Bool.eqb] in H, H';
    try discriminate; rewrite <- H' in H; clear H';
    try discriminate; injection H as ?; note_positive; try lia;
    repeat match goal with
           | E : digits_val ?a = digits_val ?b |- _ =>
               apply number_val_inj in E; [subst a | assumption | assumption]
           | E : digits_val ?a * -1 = digits_val ?b * -1 |- _ =>
               assert (digits_val a = digits_val b) by lia; clear E
           end;
    reflexivity.
Qed.

(** X12: the constructor is injective: two strings that are constructed as
    the same position are the same string. *)
Theorem init_injective (p q : string) (v : VariantPosition) :
  __init__ p = Ok v -> __init__ q = Ok v -> p = q.
Proof.
  intros Hp Hq.
  destruct (init_cases p) as [E | (sh & Hok & Et & E)];
    rewrite E in Hp; [discriminate|].
  destruct (init_cases q) as [E' | (sh' & Hok' & Et' & E')];
    rewrite E' in Hq; [discriminate|].
  rewrite (outcome_inj sh sh' v Hok Hok' Hp Hq) in Et.
  rewrite <- Et' in Et. unfold of_string in Et.
  rewrite <- (string_of_list_ascii_of_string p),
          <- (string_of_list_ascii_of_string q), Et.
  reflexivity.
Qed.

Lemma init_injective_witness :
  (__init__ "88-7" = Ok (mkVP (Some 88) (Some (-7)) None None)
   /\ __init__ "88-7" = Ok (mkVP (Some 88) (Some (-7)) None None))
  /\ "88-7"%string = "88-7"%string.
Proof.
  split; [split; vm_compute; reflexivity|].
  apply (init_injective "88-7" "88-7" (mkVP (Some 88) (Some (-7)) None None));
    vm_compute; reflexivity.
Defined.

(** ** The order *)

Lemma lt_irrefl a : __lt__ a a = Ok (PyBool false).
Proof.
  unfold __lt__, intron_lt. rewrite str_eq_refl, !int_eq_refl.
  destruct (utr a); reflexivity.
Qed.

(** X13: a position is never less than a position equal to it: when [==]
    holds, [<] returns [False], whatever the attributes hold. *)
Theorem eq_not_lt (a b : VariantPosition) :
  __eq__ a b = true -> __lt__ a b = Ok (PyBool false).
Proof. intros H. apply eq_true_iff in H. subst b. apply lt_irrefl. Qed.

Lemma eq_not_lt_witness :
  __eq__ (mkVP (Some 88) (Some 7) None None) (mkVP (Some 88) (Some 7) None None)
  = true
  /\ __lt__ (mkVP (Some 88) (Some 7) None None)
            (mkVP (Some 88) (Some 7) None None) = Ok (PyBool false).
Proof.
  split; [reflexivity|].
  apply (eq_not_lt (mkVP (Some 88) (Some 7) None None)). reflexivity.
Defined.

Ltac z_cases :=
  repeat match goal with
         | |- context [(?x =? ?y)] => destruct (Z.eqb_spec x y)
         | |- context [(?x <? ?y)] => destruct (Z.ltb_spec x y)
         end.

Ltac constructed_cases Ha Hb Na Nb :=
  destruct Ha as [? | ? ? | ? ? [-> | ->] | ? ? ? [-> | ->]];
  destruct Hb as [? | ? ? | ? ? [-> | ->] | ? ? ? [-> | ->]];
  try (pose proof (Na _ eq_refl)); try (pose proof (Nb _ eq_refl));
  clear Na Nb.

(** [__lt__] on constructed positions, in terms of the sort key: the
    lexicographic order of the keys, reversed on the pairs that take the
    absent-left branch of the tie-break. *)
Lemma lt_key a b :
  constructed a -> constructed b -> nonzero_intron a -> nonzero_intron b ->
  __lt__ a b
  = Ok (PyBool (xorb (boundary_before_offset a b)
                     (lex_ltb (sort_key a) (sort_key b)))).
Proof.
  intros Ha Hb Na Nb. constructed_cases Ha Hb Na Nb;
    unfold __lt__, intron_lt, boundary_before_offset, sort_key, lex_ltb,
           primary, is_intronic, str_eq, int_eq, opt_eqb, py_lt;
    cbn -[Z.eqb Z.ltb]; z_cases; cbn; try reflexivity; exfalso; lia.
Qed.

Lemma eq_key a b :
  constructed a -> constructed b -> nonzero_intron a -> nonzero_intron b ->
  __eq__ a b = key_eqb (sort_key a) (sort_key b).
Proof.
  intros Ha Hb Na Nb. constructed_cases Ha Hb Na Nb;
    unfold __eq__, sort_key, key_eqb, primary, str_eq, int_eq, opt_eqb;
    cbn -[Z.eqb Z.ltb]; z_cases; cbn; try reflexivity; exfalso; lia.
Qed.

Lemma init_nonzero_intron p v : __init__ p = Ok v -> nonzero_intron v.
Proof. intros H. exact (proj2 (proj2 (init_values p v H))). Qed.

Lemma lex_ltb_trans k1 k2 k3 :
  lex_ltb k1 k2 = true -> lex_ltb k2 k3 = true -> lex_ltb k1 k3 = true.
Proof.
  destruct k1 as [[a1 b1] c1], k2 as [[a2 b2] c2], k3 as [[a3 b3] c3].
  unfold lex_ltb.
  rewrite !orb_true_iff, !andb_true_iff, !orb_true_iff, !andb_true_iff,
          !Z.ltb_lt, !Z.eqb_eq.
  lia.
Qed.

Lemma lex_trichotomy k1 k2 :
  (lex_ltb k1 k2 = true /\ lex_ltb k2 k1 = false /\ key_eqb k1 k2 = false)
  \/ (lex_ltb k1 k2 = false /\ lex_ltb k2 k1 = true /\ key_eqb k1 k2 = false)
  \/ (lex_ltb k1 k2 = false /\ lex_ltb k2 k1 = false /\ key_eqb k1 k2 = true).
Proof.
  destruct k1 as [[a1 b1] c1], k2 as [[a2 b2] c2].
  unfold lex_ltb, key_eqb. z_cases; cbn; auto; exfalso; lia.
Qed.

(** X14: on two constructed positions, apart from the pairs with the same
    UTR side and the same first number where only the right one has an
    intronic position, [<] is the lexicographic order of the triples
    (rank of the UTR side in 5p, none, 3p; [utr_position] or [position];
    [intronic_position], an absent one counting as 0). *)
Theorem lt_is_key_order (s1 s2 : string) (a b : VariantPosition) :
  __init__ s1 = Ok a -> __init__ s2 = Ok b ->
  boundary_before_offset a b = false ->
  __lt__ a b = Ok (PyBool (lex_ltb (sort_key a) (sort_key b))).
Proof.
  intros Ha Hb Hn.
  rewrite (lt_key a b) by eauto using init_constructed, init_nonzero_intron.
  now rewrite Hn.
Qed.

Lemma lt_is_key_order_witness :
  (__init__ "100-2" = Ok (mkVP (Some 100) (Some (-2)) None None)
   /\ __init__ "100" = Ok (mkVP (Some 100) None None None)
   /\ boundary_before_offset (mkVP (Some 100) (Some (-2)) None None)
                             (mkVP (Some 100) None None None) = false)
  /\ __lt__ (mkVP (Some 100) (Some (-2)) None None)
            (mkVP (Some 100) None None None)
     = Ok (PyBool (lex_ltb (1, 100, -2) (1, 100, 0))).
Proof.
  split; [repeat split; vm_compute; reflexivity|].
  apply (lt_is_key_order "100-2" "100"); vm_compute; reflexivity.
Defined.

(** X15: on the remaining pairs (same UTR side, same first number, an
    intronic position on the right only) [<] gives the opposite of the key
    order, and gives the same answer with the operands exchanged. *)
Theorem lt_boundary_reversed (s1 s2 : string) (a b : VariantPosition) :
  __init__ s1 = Ok a -> __init__ s2 = Ok b ->
  boundary_before_offset a b = true ->
  __lt__ a b = Ok (PyBool (negb (lex_ltb (sort_key a) (sort_key b))))
  /\ __lt__ b a = __lt__ a b.
Proof.
  intros Ha Hb Hn.
  assert (boundary_before_offset b a = false) as Hn'.
  { unfold boundary_before_offset in *.
    destruct (is_intronic a), (is_intronic b);
      rewrite ?andb_false_r in *; try discriminate; reflexivity. }
  rewrite (lt_key a b), (lt_key b a)
    by eauto using init_constructed, init_nonzero_intron.
  rewrite Hn, Hn'. cbn [xorb]. split; [reflexivity|].
  do 2 f_equal.
  pose proof (init_nonzero_intron _ _ Hb) as Nb.
  apply init_constructed in Ha, Hb.
  unfold boundary_before_offset in Hn.
  destruct Ha as [? | ? ? | ? ? [-> | ->] | ? ? ? [-> | ->]];
    destruct Hb as [? | ? ? | ? ? [-> | ->] | ? ? ? [-> | ->]];
    try (pose proof (Nb _ eq_refl));
    revert Hn; unfold sort_key, lex_ltb, primary, str_eq, int_eq, opt_eqb;
    cbn -[Z.eqb Z.ltb]; z_cases; cbn; intros; try discriminate;
    try reflexivity; exfalso; lia.
Qed.

Lemma lt_boundary_reversed_witness :
  (__init__ "88" = Ok (mkVP (Some 88) None None None)
   /\ __init__ "88+7" = Ok (mkVP (Some 88) (Some 7) None None)
   /\ boundary_before_offset (mkVP (Some 88) None None None)
                             (mkVP (Some 88) (Some 7) None None) = true)
  /\ __lt__ (mkVP (Some 88) None None None) (mkVP (Some 88) (Some 7) None None)
     = Ok (PyBool (negb (lex_ltb (1, 88, 0) (1, 88, 7))))
  /\ __lt__ (mkVP (Some 88) (Some 7) None None) (mkVP (Some 88) None None None)
     = __lt__ (mkVP (Some 88) None None None) (mkVP (Some 88) (Some 7) None None).
Proof.
  split; [repeat split; vm_compute; reflexivity|].
  apply (lt_boundary_reversed "88" "88+7"); vm_compute; reflexivity.
Defined.

Lemma same_kind_no_boundary x y :
  is_intronic x = is_intronic y -> boundary_before_offset x y = false.
Proof.
  intros E. unfold boundary_before_offset. rewrite E.
  destruct (is_intronic y); rewrite ?andb_false_r; auto.
Qed.

Lemma same_kind_cases s1 s2 a b :
  __init__ s1 = Ok a -> __init__ s2 = Ok b ->
  is_intronic a = is_intronic b ->
  (__lt__ a b = Ok (PyBool true) /\ __lt__ b a = Ok (PyBool false)
   /\ __eq__ a b = false)
  \/ (__lt__ a b = Ok (PyBool false) /\ __lt__ b a = Ok (PyBool true)
      /\ __eq__ a b = false)
  \/ (__lt__ a b = Ok (PyBool false) /\ __lt__ b a = Ok (PyBool false)
      /\ __eq__ a b = true).
Proof.
  intros Ha Hb Hk.
  rewrite (lt_key a b), (lt_key b a), (eq_key a b)
    by eauto using init_constructed, init_nonzero_intron.
  rewrite !same_kind_no_boundary by congruence. cbn [xorb].
  destruct (lex_trichotomy (sort_key a) (sort_key b))
    as [(-> & -> & ->) | [(-> & -> & ->) | (-> & -> & ->)]]; auto.
Qed.

(** X16: two constructed positions of which both or neither are intronic
    are in exactly one of the three relations [a < b], [b < a], [a == b]. *)
Theorem lt_trichotomy_same_kind (s1 s2 : string) (a b : VariantPosition) :
  __init__ s1 = Ok a -> __init__ s2 = Ok b ->
  is_intronic a = is_intronic b ->
  (__lt__ a b = Ok (PyBool true) /\ __lt__ b a = Ok (PyBool false)
   /\ __eq__ a b = false)
  \/ (__lt__ a b = Ok (PyBool false) /\ __lt__ b a = Ok (PyBool true)
      /\ __eq__ a b = false)
  \/ (__lt__ a b = Ok (PyBool false) /\ __lt__ b a = Ok (PyBool false)
      /\ __eq__ a b = true).
Proof. apply same_kind_cases. Qed.

Lemma lt_trichotomy_same_kind_witness :
  (__init__ "88-7" = Ok (mkVP (Some 88) (Some (-7)) None None)
   /\ __init__ "-10+5" = Ok (mkVP None (Some 5) (Some "5p"%string) (Some 10))
   /\ is_intronic (mkVP (Some 88) (Some (-7)) None None)
      = is_intronic (mkVP None (Some 5) (Some "5p"%string) (Some 10)))
  /\ ((__lt__ (mkVP (Some 88) (Some (-7)) None None) (mkVP None (Some 5) (Some "5p"%string) (Some 10)) = Ok (PyBool true)
       /\ __lt__ (mkVP None (Some 5) (Some "5p"%string) (Some 10)) (mkVP (Some 88) (Some (-7)) None None) = Ok (PyBool false)
       /\ __eq__ (mkVP (Some 88) (Some (-7)) None None) (mkVP None (Some 5) (Some "5p"%string) (Some 10)) = false)
      \/ (__lt__ (mkVP (Some 88) (Some (-7)) None None) (mkVP None (Some 5) (Some "5p"%string) (Some 10)) = Ok (PyBool false)
          /\ __lt__ (mkVP None (Some 5) (Some "5p"%string) (Some 10)) (mkVP (Some 88) (Some (-7)) None None) = Ok (PyBool true)
          /\ __eq__ (mkVP (Some 88) (Some (-7)) None None) (mkVP None (Some 5) (Some "5p"%string) (Some 10)) = false)
      \/ (__lt__ (mkVP (Some 88) (Some (-7)) None None) (mkVP None (Some 5) (Some "5p"%string) (Some 10)) = Ok (PyBool false)
          /\ __lt__ (mkVP None (Some 5) (Some "5p"%string) (Some 10)) (mkVP (Some 88) (Some (-7)) None None) = Ok (PyBool false)
          /\ __eq__ (mkVP (Some 88) (Some (-7)) None None) (mkVP None (Some 5) (Some "5p"%string) (Some 10)) = true)).
Proof.
  split; [repeat split; vm_compute; reflexivity|].
  apply (lt_trichotomy_same_kind "88-7" "-10+5"); vm_compute; reflexivity.
Defined.

(** X17: on constructed positions of which all or none are intronic, [<]
    is transitive. *)
Theorem lt_transitive_same_kind (s1 s2 s3 : string) (a b c : VariantPosition) :
  __init__ s1 = Ok a -> __init__ s2 = Ok b -> __init__ s3 = Ok c ->
  is_intronic a = is_intronic b -> is_intronic b = is_intronic c ->
  __lt__ a b = Ok (PyBool true) -> __lt__ b c = Ok (PyBool true) ->
  __lt__ a c = Ok (PyBool true).
Proof.
  intros Ha Hb Hc Hab Hbc.
  rewrite (lt_key a b), (lt_key b c), (lt_key a c)
    by eauto using init_constructed, init_nonzero_intron.
  rewrite !same_kind_no_boundary by congruence. cbn [xorb].
  intros H1 H2. do 2 f_equal.
  apply lex_ltb_trans with (k2 := sort_key b); congruence.
Qed.

Lemma lt_transitive_same_kind_witness :
  (__init__ "-3" = Ok (mkVP None None (Some "5p"%string) (Some 3))
   /\ __init__ "100" = Ok (mkVP (Some 100) None None None)
   /\ __init__ "*5" = Ok (mkVP None None (Some "3p"%string) (Some 5)))
  /\ __lt__ (mkVP None None (Some "5p"%string) (Some 3))
            (mkVP None None (Some "3p"%string) (Some 5)) = Ok (PyBool true).
Proof.
  split; [repeat split; vm_compute; reflexivity|].
  apply (lt_transitive_same_kind "-3" "100" "*5"
           (mkVP None None (Some "5p"%string) (Some 3))
           (mkVP (Some 100) None None None)
           (mkVP None None (Some "3p"%string) (Some 5)));
    vm_compute; reflexivity.
Defined.

(** X18: on two constructed positions of which both or neither are
    intronic, the derived operators agree with [<] on the exchanged
    operands: [a > b] is [b < a], and [a <= b] is [b >= a]. *)
Theorem derived_operators_same_kind (s1 s2 : string) (a b : VariantPosition) :
  __init__ s1 = Ok a -> __init__ s2 = Ok b ->
  is_intronic a = is_intronic b ->
  __gt__ a b = __lt__ b a /\ __le__ a b = __ge__ b a.
Proof.
  intros Ha Hb Hk. unfold __gt__, __le__, __ge__, __ne__.
  destruct (same_kind_cases s1 s2 a b Ha Hb Hk)
    as [(-> & -> & ->) | [(-> & -> & ->) | (-> & -> & ->)]];
    split; reflexivity.
Qed.

Lemma derived_operators_same_kind_witness :
  (__init__ "-3" = Ok (mkVP None None (Some "5p"%string) (Some 3))
   /\ __init__ "100" = Ok (mkVP (Some 100) None None None))
  /\ __gt__ (mkVP None None (Some "5p"%string) (Some 3))
            (mkVP (Some 100) None None None)
     = __lt__ (mkVP (Some 100) None None None)
              (mkVP None None (Some "5p"%string) (Some 3))
  /\ __le__ (mkVP None None (Some "5p"%string) (Some 3))
            (mkVP (Some 100) None None None)
     = __ge__ (mkVP (Some 100) None None None)
              (mkVP None None (Some "5p"%string) (Some 3)).
Proof.
  split; [split; vm_compute; reflexivity|].
  apply (derived_operators_same_kind "-3" "100"); vm_compute; reflexivity.
Defined.

(** ** Adjacency *)

(** X19: [is_adjacent] does not depend on the order of its two arguments,
    in its value as in what it raises. *)
Theorem is_adjacent_symmetric (a b : VariantPosition) :
  is_adjacent a b = is_adjacent b a.
Proof.
  unfold is_adjacent. rewrite (andb_comm (negb (is_extended b))).
  destruct (negb (is_extended a) && negb (is_extended b)); [|reflexivity].
  destruct (position a) as [n|], (position b) as [m|]; try reflexivity.
  cbn [py_sub bind]. replace (m - n) with (- (n - m)) by lia.
  now rewrite Z.abs_opp.
Qed.

(** X20: on two constructed positions that are not extended,
    [is_adjacent] raises nothing and returns [True] exactly when the two
    positions differ by 1. *)
Theorem is_adjacent_plain (s1 s2 : string) (a b : VariantPosition) :
  __init__ s1 = Ok a -> __init__ s2 = Ok b ->
  is_extended a = false -> is_extended b = false ->
  exists n m,
    position a = Some n /\ position b = Some m
    /\ is_adjacent a b = Ok (PyBool (Z.abs (n - m) =? 1)).
Proof.
  intros Ha Hb Ea Eb. apply init_constructed in Ha, Hb.
  destruct Ha as [n | ? ? | ? ? ? | ? ? ? ?]; try discriminate.
  destruct Hb as [m | ? ? | ? ? ? | ? ? ? ?]; try discriminate.
  exists n, m. repeat split. apply is_adjacent_simple.
Qed.

Lemma is_adjacent_plain_witness :
  (__init__ "10" = Ok (mkVP (Some 10) None None None)
   /\ __init__ "11" = Ok (mkVP (Some 11) None None None))
  /\ exists n m,
       position (mkVP (Some 10) None None None) = Some n
       /\ position (mkVP (Some 11) None None None) = Some m
       /\ is_adjacent (mkVP (Some 10) None None None)
                      (mkVP (Some 11) None None None)
          = Ok (PyBool (Z.abs (n - m) =? 1)).
Proof.
  split; [split; vm_compute; reflexivity|].
  apply (is_adjacent_plain "10" "11"); vm_compute; reflexivity.
Defined.

(** ** The groups of a match *)

(** X21: when the pattern matches a string, exactly one of its four named
    groups is set, and it holds the whole string. *)
Theorem groups_exclusive (s : str) (m : mstate) :
  _fullmatch s = Some m ->
  exists g,
    In g ["position"; "position_intron"; "position_utr";
          "position_utr_intron"]%string
    /\ groupdict m g = Some s
    /\ forall n, n <> g -> groupdict m n = None.
Proof.
  intros H. destruct (fullmatch_shape s m H) as (sh & _ & _ & ->).
  exists (group_name sh). unfold groupdict. cbn [caps lookup].
  rewrite String.eqb_refl. repeat split.
  - destruct sh; cbn; auto.
  - intros n Hn. destruct (String.eqb_spec (group_name sh) n);
      [congruence | reflexivity].
Qed.

Lemma groups_exclusive_witness :
  _fullmatch (of_string "88-7")
  = Some (MState [] [("position_intron"%string, of_string "88-7")])
  /\ exists g,
       In g ["position"; "position_intron"; "position_utr";
             "position_utr_intron"]%string
       /\ groupdict (MState [] [("position_intron"%string, of_string "88-7")]) g
          = Some (of_string "88-7")
       /\ forall n, n <> g ->
            groupdict (MState [] [("position_intron"%string, of_string "88-7")]) n
            = None.
Proof.
  split; [vm_compute; reflexivity|].
  apply (groups_exclusive (of_string "88-7")). vm_compute; reflexivity.
Defined.
